(** * A shallow embedding of [place_recommendation_app_v2.py]

    The Streamlit application embeds the user's text, asks a FAISS index for
    the five nearest reviews, turns distances into similarities, shows them
    in a table, geocodes every result and builds the list of map locations
    with min/max-normalised similarities, from which it renders a map page.

    Modelling choices.
    - Numbers are exact rationals [Q]; rounding of float32/float64 is not
      modelled.  numpy scalar division is modelled by [npdiv], which
      produces [NaN] for [0/0] and an infinity for [x/0], as numpy does
      (with a RuntimeWarning, never an exception).
    - Streamlit output ([st.title], [st.write], [st.dataframe], [st.error],
      [st.warning]) is a trace of [event]s; Python exceptions are the [exn]
      results of a small writer/error monad [M].
    - The OpenAI embedding backend, the nearest-neighbour computation of the
      FAISS index and the Google geocoding HTTP endpoint are oracles
      (Section variables); the dimension check of FAISS's Python [search]
      wrapper is modelled, with the index dimension [index_d]. *)

From Stdlib Require Import String List Bool Arith ZArith QArith Qminmax Lia Lqa Sorted.
Import ListNotations.


(* ------------------------------------------------------------------ *)
(** ** Data model *)

(** One row of [reviews_embeddings.csv] (the metadata DataFrame). *)
Record Row := mkRow {
  name : string;
  address : string;
  review_text : string
}.

(** One row of [results]: the metadata columns plus the [similarity]
    column added at line 79. *)
Record ResultRow := mkResultRow {
  res_name : string;
  res_address : string;
  res_review_text : string;
  similarity : Q
}.

(** The value of a numpy floating-point scalar. *)
Inductive num :=
| Fin (q : Q)
| NaN
| PosInf
| NegInf.

(** A dictionary appended to [locations] (lines 98-105). *)
Record Location := mkLocation {
  loc_name : string;
  loc_address : string;
  loc_review_text : string;
  loc_similarity : num;
  latitude : Q;
  longitude : Q
}.

(** The messages the application prints. *)
Inductive msg :=
| MsgEmbeddingError            (* line 33 *)
| MsgComputing                 (* line 74 *)
| MsgRecommended               (* line 82 *)
| MsgMapHeader                 (* line 85 *)
| MsgNotFound                  (* line 54 *)
| MsgApiError (status : string)  (* line 56 *)
| MsgNetworkError (attempt : nat) (* line 59 *)
| MsgGeoFailed                 (* line 63 *)
| MsgNoLocations.              (* line 176 *)

(** Observable effects, in program order. *)
Inductive event :=
| EvTitle
| EvWrite (m : msg)
| EvError (m : msg)
| EvWarning (m : msg)
| EvEmbedCall (text : string)
| EvSearch (k : nat)
| EvDataframe (rows : list ResultRow)
| EvHttpGet (name address : string)
| EvSleep (seconds : nat).

(** Python exceptions that can escape [main]. *)
Inductive exn :=
| TypeError
| IndexError
| ValueError
| AssertionError
| NameError.

(** Answer of the embedding backend for one request. *)
Inductive emb_resp :=
| EmbOk (v : list Q)
| EmbRaises.

(** Answer of one geocoding HTTP attempt: a [RequestException], or the
    JSON body with its [status] and the [geometry.location] of each entry
    of [results]. *)
Inductive geo_resp :=
| GeoRequestException
| GeoJson (status : string) (results : list (Q * Q)).

(** What [get_location] returns: [(lat, lng)], [(None, None)], or the
    implicit [None] of a Python function that falls off its end. *)
Inductive geo_ret :=
| Coords (lat lng : Q)
| NoneNone
| NoneRet.

(* ------------------------------------------------------------------ *)
(** ** A writer/error monad for Streamlit output and exceptions *)

Definition M (A : Type) : Type := list event -> list event * (exn + A).

Definition ret {A} (a : A) : M A := fun tr => (tr, inr a).

Definition bind {A B} (m : M A) (f : A -> M B) : M B :=
  fun tr =>
    match m tr with
    | (tr', inl e) => (tr', inl e)
    | (tr', inr a) => f a tr'
    end.

Definition emit (e : event) : M unit := fun tr => (tr ++ [e], inr tt).

Definition raise {A} (e : exn) : M A := fun tr => (tr, inl e).

Notation "x <- m ;; k" := (bind m (fun x => k))
  (at level 61, m at next level, right associativity).
Notation "m ;; k" := (bind m (fun _ : unit => k))
  (at level 61, right associativity).

(* ------------------------------------------------------------------ *)
(** ** Numeric helpers *)

(** numpy scalar division [x / y]. *)
Definition npdiv (x y : Q) : num :=
  if Qeq_bool y 0 then
    if Qeq_bool x 0 then NaN
    else if Qle_bool 0 x then PosInf else NegInf
  else Fin (x / y).

(** Python truthiness of a number: [0] and [0.0] are false. *)
Definition truthy (x : Q) : bool := negb (Qeq_bool x 0).

(** [1 - d / 2] (line 79). *)
Definition raw_similarity (d : Q) : Q := 1 - d / 2.

(** [Series.max] and [Series.min] over a non-empty column. *)
Definition series_max (xs : list Q) : Q :=
  match xs with
  | [] => 0
  | x :: xs' => fold_left Qmax xs' x
  end.

Definition series_min (xs : list Q) : Q :=
  match xs with
  | [] => 0
  | x :: xs' => fold_left Qmin xs' x
  end.

(** Line 96: [(row['similarity'] - min_similarity) / (max_similarity - min_similarity)]. *)
Definition normalize (mx mn s : Q) : num := npdiv (s - mn) (mx - mn).

(* ------------------------------------------------------------------ *)
(** ** pandas helpers *)

(** [metadata.iloc[i]] for one position: negative positions count from
    the end, anything else out of range is an error. *)
Definition iloc_one (md : list Row) (i : Z) : option Row :=
  let n := Z.of_nat (length md) in
  if (0 <=? i)%Z && (i <? n)%Z then nth_error md (Z.to_nat i)
  else if (- n <=? i)%Z && (i <? 0)%Z then nth_error md (Z.to_nat (n + i))
  else None.

(** [metadata.iloc[indices]]: all positions or an [IndexError]. *)
Fixpoint iloc (md : list Row) (idx : list Z) : option (list Row) :=
  match idx with
  | [] => Some []
  | i :: is =>
      match iloc_one md i, iloc md is with
      | Some r, Some rs => Some (r :: rs)
      | _, _ => None
      end
  end.

(** [results['similarity'] = 1 - distances[0] / 2]: a column assignment,
    positional; a length mismatch is a [ValueError]. *)
Fixpoint with_similarity (rows : list Row) (dists : list Q) : option (list ResultRow) :=
  match rows, dists with
  | [], [] => Some []
  | r :: rs, d :: ds =>
      match with_similarity rs ds with
      | Some out =>
          Some (mkResultRow (name r) (address r) (review_text r) (raw_similarity d) :: out)
      | None => None
      end
  | _, _ => None
  end.

(* ------------------------------------------------------------------ *)
(** ** The application *)

Section App.

(** [metadata = pd.read_csv(csv_data_path)] *)
Variable metadata : list Row.
(** [client.embeddings.create(...)]: the answer for a given text. *)
Variable embed_backend : string -> emb_resp.
(** [index.d], the dimension of the vectors stored in the FAISS index. *)
Variable index_d : nat.
(** The nearest-neighbour answer of the index for a query row:
    [(distances[0], indices[0])]. *)
Variable index_search : list num -> nat -> list Q * list Z.
(** [requests.get(url)] for [(name, address)] at a given attempt. *)
Variable geocode_http : string -> string -> nat -> geo_resp.

(** Lines 24-34. *)
Definition get_embedding (text : string) : M (option (list Q)) :=
  emit (EvEmbedCall text) ;;
  match embed_backend text with
  | EmbOk v => ret (Some v)
  | EmbRaises => emit (EvError MsgEmbeddingError) ;; ret None
  end.

(** Line 72: [np.array(e).astype('float32').reshape(1, -1)], the single
    row of the query matrix.  numpy casts [None] to [nan]:
    [np.array(None).astype('float32').reshape(1, -1)] is [[[nan]]], a
    one-column row, and nothing is raised. *)
Definition to_query_vector (e : option (list Q)) : list num :=
  match e with
  | Some v => map Fin v
  | None => [NaN]
  end.

(** Line 75: [index.search(query_embedding, k)].  FAISS's Python wrapper
    starts with [n, d = x.shape] and [assert d == self.d]; a query row of
    another width raises an [AssertionError]. *)
Definition faiss_search (x : list num) (k : nat) : M (list Q * list Z) :=
  if Nat.eqb (length x) index_d then ret (index_search x k) else raise AssertionError.

(** The body of [for attempt in range(max_retries)] in [get_location]
    (lines 43-64), from iteration [attempt] on, with [remaining]
    iterations left; when the loop runs out the function returns [None]. *)
Fixpoint get_location_loop (nm addr : string) (max_retries attempt remaining : nat)
  : M geo_ret :=
  match remaining with
  | O => ret NoneRet
  | S remaining' =>
      emit (EvHttpGet nm addr) ;;
      match geocode_http nm addr attempt with
      | GeoJson status results =>
          match (status =? "OK")%string, results with
          | true, (lat, lng) :: _ => ret (Coords lat lng)
          | _, _ =>
              (if (status =? "ZERO_RESULTS")%string
               then emit (EvWarning MsgNotFound)
               else emit (EvError (MsgApiError status))) ;;
              ret NoneNone
          end
      | GeoRequestException =>
          emit (EvError (MsgNetworkError (S attempt))) ;;
          if attempt <? max_retries - 1 then
            emit (EvSleep 2) ;;
            get_location_loop nm addr max_retries (S attempt) remaining'
          else
            emit (EvError MsgGeoFailed) ;;
            ret NoneNone
      end
  end.

(** [get_location(name, address, max_retries)]. *)
Definition get_location (nm addr : string) (max_retries : nat) : M geo_ret :=
  get_location_loop nm addr max_retries 0 max_retries.

(** The dictionary of lines 98-105. *)
Definition mk_location (mx mn : Q) (r : ResultRow) (lat lng : Q) : Location :=
  mkLocation (res_name r) (res_address r) (res_review_text r)
    (normalize mx mn (similarity r)) lat lng.

(** Lines 93-105 after the geocoding call: [lat, lng = ...] unpacks the
    result ([lat, lng = None] raises a [TypeError]) and [if lat and lng]
    decides whether the row gets an entry in [locations]. *)
Definition location_entry (mx mn : Q) (row : ResultRow) (g : geo_ret) : M (option Location) :=
  match g with
  | NoneRet => raise TypeError
  | NoneNone => ret None
  | Coords lat lng =>
      if truthy lat && truthy lng
      then ret (Some (mk_location mx mn row lat lng))
      else ret None
  end.

(** Lines 92-105: [for _, row in results.iterrows()], with [locations]
    as accumulator. *)
Fixpoint build_locations (mx mn : Q) (rows : list ResultRow) (locations : list Location)
  : M (list Location) :=
  match rows with
  | [] => ret locations
  | row :: rows' =>
      g <- get_location (res_name row) (res_address row) 3 ;;
      entry <- location_entry mx mn row g ;;
      match entry with
      | Some loc => build_locations mx mn rows' (locations ++ [loc])
      | None => build_locations mx mn rows' locations
      end
  end.

(** [metadata.iloc[indices[0]]] in the monad. *)
Definition iloc_M (idx : list Z) : M (list Row) :=
  match iloc metadata idx with
  | Some rows => ret rows
  | None => raise IndexError
  end.

(** [results['similarity'] = ...] in the monad. *)
Definition with_similarity_M (rows : list Row) (dists : list Q) : M (list ResultRow) :=
  match with_similarity rows dists with
  | Some out => ret out
  | None => raise ValueError
  end.

(** Lines 107-176.  With [locations] empty, the warning of line 176.
    Otherwise lines 108-173 evaluate the f-string [html_code]: its
    replacement fields are evaluated in order, [{google_maps_api_key}] and
    [{locations}] succeed, and [{red}] (the JavaScript [${red}] of line
    129) names no Python variable, so a [NameError] is raised before
    [st.components.v1.html] is reached. *)
Definition show_map (locations : list Location) : M unit :=
  match locations with
  | [] => emit (EvWarning MsgNoLocations)
  | _ :: _ => raise NameError
  end.

(** Lines 66-176: [main()] for the text [user_input] typed by the user. *)
Definition main (user_input : string) : M unit :=
  emit EvTitle ;;
  if (user_input =? "")%string then ret tt else
  e <- get_embedding user_input ;;
  let query_embedding := to_query_vector e in
  emit (EvWrite MsgComputing) ;;
  emit (EvSearch 5) ;;
  r <- faiss_search query_embedding 5 ;;
  let (distances, indices) := r in
  rows <- iloc_M indices ;;
  results <- with_similarity_M rows distances ;;
  emit (EvWrite MsgRecommended) ;;
  emit (EvDataframe results) ;;
  emit (EvWrite MsgMapHeader) ;;
  let max_similarity := series_max (map similarity results) in
  let min_similarity := series_min (map similarity results) in
  locations <- build_locations max_similarity min_similarity results [] ;;
  show_map locations.

End App.

(* ------------------------------------------------------------------ *)
(** ** Vocabulary of the specification *)

(** [xs] is an order-preserving subsequence of [ys]. *)
Inductive subseq {A : Type} : list A -> list A -> Prop :=
| subseq_nil : subseq [] []
| subseq_skip x xs ys : subseq xs ys -> subseq xs (x :: ys)
| subseq_take x xs ys : subseq xs ys -> subseq (x :: xs) (x :: ys).

Definition is_http (e : event) : bool :=
  match e with EvHttpGet _ _ => true | _ => false end.

Definition is_sleep (e : event) : bool :=
  match e with EvSleep _ => true | _ => false end.

(** Number of HTTP requests and of sleeps in a piece of trace. *)
Definition count_http (ev : list event) : nat := length (filter is_http ev).
Definition count_sleep (ev : list event) : nat := length (filter is_sleep ev).

(** A numpy value that is the finite number [q]. *)
Definition num_eq (n : num) (q : Q) : Prop :=
  match n with Fin p => p == q | _ => False end.

(** A numpy value in the closed interval [0, 1]. *)
Definition in_unit (n : num) : Prop :=
  match n with Fin p => 0 <= p <= 1 | _ => False end.

(** The trace of [main] up to the geocoding loop, when retrieval succeeds. *)
Definition trace_before_geocoding (user_input : string) (results : list ResultRow) : list event :=
  [EvTitle; EvEmbedCall user_input; EvWrite MsgComputing; EvSearch 5;
   EvWrite MsgRecommended; EvDataframe results; EvWrite MsgMapHeader].

(** Lines 88-105 as [main] runs them on its table [results]: the loop
    over the rows, with the [max()] and [min()] of the similarity column
    and an empty [locations] to start with. *)
Definition main_geocoding (geocode_http : string -> string -> nat -> geo_resp)
    (results : list ResultRow) : M (list Location) :=
  build_locations geocode_http (series_max (map similarity results))
    (series_min (map similarity results)) results [].

(** The geocoding answer is a successful one whose first location is
    [(la, lo)]. *)
Definition resolved (r : geo_resp) (la lo : Q) : Prop :=
  exists rs, r = GeoJson "OK"%string ((la, lo) :: rs).

(** The entry of [locations] built for a selected row and its coordinates. *)
Definition location_of (mx mn : Q) (p : ResultRow * (Q * Q)) : Location :=
  mk_location mx mn (fst p) (fst (snd p)) (snd (snd p)).

(** The events the geocoding of one row can produce. *)
Definition is_geo_event (e : event) : bool :=
  match e with
  | EvHttpGet _ _ | EvError _ | EvWarning _ | EvSleep _ => true
  | _ => false
  end.

(** The table rows shown by a trace. *)
Definition table_shown (tr : list event) : list ResultRow :=
  flat_map (fun e => match e with EvDataframe l => l | _ => [] end) tr.

(** The metadata columns of a result row and of a metadata row. *)
Definition result_key (r : ResultRow) : string * string * string :=
  (res_name r, res_address r, res_review_text r).
Definition row_key (r : Row) : string * string * string :=
  (name r, address r, review_text r).

(* ------------------------------------------------------------------ *)
(** ** Concrete inputs *)

Definition fixture_metadata : list Row :=
  [mkRow "Cafe Onion" "Seongsu-dong 1" "great bread";
   mkRow "Gwangjang Market" "Jongno 88" "mung bean pancakes";
   mkRow "Namsan Tower" "Yongsan 105" "night view";
   mkRow "Bukchon Village" "Gye-dong 37" "hanok streets";
   mkRow "Han River Park" "Yeouido 330" "picnic spot"].

(** Two stored reviews only: fewer than the five neighbours asked for. *)
Definition fixture_small_metadata : list Row := firstn 2 fixture_metadata.

Definition fixture_embed (_ : string) : emb_resp := EmbOk [1; 0; 0].


(** The distances [{0, 0.4, 0.8, 1.2, 2.0}], nearest first. *)
Definition fixture_search_spread (_ : list num) (_ : nat) : list Q * list Z :=
  ([0; 2 # 5; 4 # 5; 6 # 5; 2], [0; 1; 2; 3; 4]%Z).

(** Five neighbours at the same distance. *)
Definition fixture_search_tied (_ : list num) (_ : nat) : list Q * list Z :=
  ([1 # 2; 1 # 2; 1 # 2; 1 # 2; 1 # 2], [0; 1; 2; 3; 4]%Z).

(** Five neighbours identical to the query. *)
Definition fixture_search_identical (_ : list num) (_ : nat) : list Q * list Z :=
  ([0; 0; 0; 0; 0], [4; 3; 2; 1; 0]%Z).

(** An index of two vectors asked for five neighbours: FAISS pads the
    answer with label [-1] and the largest float32 as distance. *)
Definition flt_max : Q := 340282346638528859811704183484516925440.
Definition fixture_search_padded (_ : list num) (_ : nat) : list Q * list Z :=
  ([0; 1 # 2; flt_max; flt_max; flt_max], [0; 1; -1; -1; -1]%Z).

Definition fixture_geocode_ok (_ _ : string) (_ : nat) : geo_resp :=
  GeoJson "OK" [(375665 # 10000, 126978 # 1000)].

Definition fixture_geocode_down (_ _ : string) (_ : nat) : geo_resp :=
  GeoRequestException.

(** The tables [main] builds from [fixture_metadata] for the spread and
    the tied distances. *)
Definition fixture_results_spread : list ResultRow :=
  match with_similarity fixture_metadata [0; 2 # 5; 4 # 5; 6 # 5; 2] with
  | Some r => r | None => [] end.

Definition fixture_results_tied : list ResultRow :=
  match with_similarity fixture_metadata [1 # 2; 1 # 2; 1 # 2; 1 # 2; 1 # 2] with
  | Some r => r | None => [] end.

(* ------------------------------------------------------------------ *)
(** ** Proofs *)

Lemma bind_run {A B} (m : M A) (f : A -> M B) tr tr' a :
  m tr = (tr', inr a) -> bind m f tr = f a tr'.
Proof. intros H. unfold bind. rewrite H. reflexivity. Qed.

Lemma bind_ret_l {A B} (a : A) (f : A -> M B) tr : bind (ret a) f tr = f a tr.
Proof. reflexivity. Qed.

Lemma bind_emit (e : event) {B} (f : unit -> M B) tr : bind (emit e) f tr = f tt (tr ++ [e]).
Proof. reflexivity. Qed.

Ltac run_m := unfold bind, emit, ret, raise; cbn -[Qeq_bool Qle_bool Qmax Qmin Nat.ltb String.eqb].

(** Closes [forall s, In (EvSleep s) ev -> s = 2] on a concrete prefix. *)
Ltac sleep_tac :=
  let s := fresh "s" in let Hin := fresh "Hin" in
  intros s Hin;
  repeat (destruct Hin as [Hin|Hin]; [try congruence|]);
  try contradiction; auto.

Ltac close_rest := first [solve [sleep_tac] | intros ? ? ?; discriminate].

Section Geocoding.

Variable geocode_http : string -> string -> nat -> geo_resp.

Lemma get_location_loop_bounded (nm ad : string) (mr : nat) :
  forall (remaining attempt : nat) (tr : list event),
    (1 <= remaining)%nat -> (attempt + remaining)%nat = mr ->
    exists ev g,
      get_location_loop geocode_http nm ad mr attempt remaining tr = (tr ++ ev, inr g) /\
      ((exists la lo, g = Coords la lo) \/ g = NoneNone) /\
      (count_http ev <= remaining)%nat /\
      (count_sleep ev + 1)%nat = count_http ev /\
      (forall s, In (EvSleep s) ev -> s = 2%nat) /\
      forallb is_geo_event ev = true /\
      (forall la lo, g = Coords la lo -> exists n, resolved (geocode_http nm ad n) la lo).
Proof.
  induction remaining as [|r IH]; intros attempt tr Hr Hsum; [lia|].
  run_m.
  destruct (geocode_http nm ad attempt) as [|st res] eqn:E.
  - destruct (Nat.ltb attempt (mr - 1)) eqn:Hlt.
    + apply Nat.ltb_lt in Hlt. run_m.
      destruct (IH (S attempt) (((tr ++ [EvHttpGet nm ad]) ++ [EvError (MsgNetworkError (S attempt))]) ++ [EvSleep 2]))
        as (ev & g & Hrun & Hg & Hh & Hs & Hsl & Hm & Hres); [lia|lia|].
      rewrite Hrun.
      exists ([EvHttpGet nm ad; EvError (MsgNetworkError (S attempt)); EvSleep 2] ++ ev), g.
      repeat rewrite <- app_assoc. split; [reflexivity|].
      unfold count_http, count_sleep in *. cbn.
      repeat split; try assumption; try lia.
      sleep_tac.
    + run_m.
      exists [EvHttpGet nm ad; EvError (MsgNetworkError (S attempt)); EvError MsgGeoFailed], NoneNone.
      repeat rewrite <- app_assoc. split; [reflexivity|].
      unfold count_http, count_sleep. cbn.
      repeat split; try lia; auto.
      all: close_rest.
  - destruct (st =? "OK")%string eqn:Eok; [destruct res as [|[la lo] res']|].
    + destruct (st =? "ZERO_RESULTS")%string; run_m;
        eexists [EvHttpGet nm ad; _], NoneNone;
        repeat rewrite <- app_assoc; (split; [reflexivity|]);
        unfold count_http, count_sleep; cbn;
        (repeat split; try lia; auto);
        close_rest.
    + run_m. exists [EvHttpGet nm ad], (Coords la lo).
      split; [reflexivity|].
      unfold count_http, count_sleep; cbn.
      repeat split; try lia; eauto.
      * sleep_tac.
      * intros la' lo' Heq. injection Heq as <- <-. exists attempt, res'.
        apply String.eqb_eq in Eok. subst st. exact E.
    + destruct (st =? "ZERO_RESULTS")%string; run_m;
        eexists [EvHttpGet nm ad; _], NoneNone;
        repeat rewrite <- app_assoc; (split; [reflexivity|]);
        unfold count_http, count_sleep; cbn;
        (repeat split; try lia; auto);
        close_rest.
Qed.


Lemma build_locations_spec (mx mn : Q) :
  forall (rows : list ResultRow) (acc : list Location) (tr : list event),
    exists ev sel,
      build_locations geocode_http mx mn rows acc tr
        = (tr ++ ev, inr (acc ++ map (location_of mx mn) sel)) /\
      subseq (map fst sel) rows /\
      forallb is_geo_event ev = true /\
      Forall (fun p => truthy (fst (snd p)) && truthy (snd (snd p)) = true /\
                       exists n, resolved (geocode_http (res_name (fst p)) (res_address (fst p)) n)
                                   (fst (snd p)) (snd (snd p))) sel.
Proof.
  induction rows as [|row rows IH]; intros acc tr.
  - exists [], []. rewrite !app_nil_r.
    repeat split; [constructor|constructor].
  - destruct (get_location_loop_bounded (res_name row) (res_address row) 3 3 0 tr)
      as (ev1 & g & Hrun & Hg & _ & _ & _ & Hm1 & Hres1); [lia|lia|].
    cbn [build_locations]. rewrite (bind_run _ _ _ _ _ Hrun).
    destruct Hg as [(la & lo & ->) | ->].
    + unfold location_entry.
      destruct (truthy la && truthy lo) eqn:Ht.
      * rewrite bind_ret_l.
        destruct (IH (acc ++ [mk_location mx mn row la lo]) (tr ++ ev1))
          as (ev2 & sel & Hb & Hsub & Hm2 & Hsel).
        rewrite Hb. exists (ev1 ++ ev2), ((row, (la, lo)) :: sel).
        rewrite <- !app_assoc. split; [reflexivity|].
        split; [constructor; exact Hsub|].
        split; [rewrite forallb_app, Hm1, Hm2; reflexivity|].
        constructor; [|exact Hsel]. split; [exact Ht|]. apply Hres1. reflexivity.
      * rewrite bind_ret_l.
        destruct (IH acc (tr ++ ev1)) as (ev2 & sel & Hb & Hsub & Hm2 & Hsel).
        rewrite Hb. exists (ev1 ++ ev2), sel.
        rewrite <- !app_assoc. split; [reflexivity|].
        split; [constructor; exact Hsub|].
        split; [rewrite forallb_app, Hm1, Hm2; reflexivity|exact Hsel].
    + cbn [location_entry]. rewrite bind_ret_l.
      destruct (IH acc (tr ++ ev1)) as (ev2 & sel & Hb & Hsub & Hm2 & Hsel).
      rewrite Hb. exists (ev1 ++ ev2), sel.
      rewrite <- !app_assoc. split; [reflexivity|].
      split; [constructor; exact Hsub|].
      split; [rewrite forallb_app, Hm1, Hm2; reflexivity|exact Hsel].
Qed.

End Geocoding.

Section Main.

Variable metadata : list Row.
Variable embed_backend : string -> emb_resp.
Variable index_d : nat.
Variable index_search : list num -> nat -> list Q * list Z.
Variable geocode_http : string -> string -> nat -> geo_resp.

(** When retrieval succeeds, [main] shows the title and the table of
    results, runs the geocoding loop on that table and ends with
    [show_map]. *)
Lemma main_after_retrieval (u : string) (v dists : list Q) (idxs : list Z)
      (rows : list Row) (results : list ResultRow) :
  u <> ""%string ->
  embed_backend u = EmbOk v ->
  length v = index_d ->
  index_search (map Fin v) 5%nat = (dists, idxs) ->
  iloc metadata idxs = Some rows ->
  with_similarity rows dists = Some results ->
  main metadata embed_backend index_d index_search geocode_http u []
    = (locs <- main_geocoding geocode_http results ;; show_map locs)
        (trace_before_geocoding u results).
Proof.
  intros Hu Hemb Hlen Hsearch Hiloc Hws.
  assert (Hu' : (u =? "")%string = false) by (apply String.eqb_neq; exact Hu).
  unfold main, get_embedding, to_query_vector, faiss_search, iloc_M, with_similarity_M.
  rewrite Hu', Hemb. run_m.
  rewrite length_map, Hlen, Nat.eqb_refl. run_m.
  rewrite Hsearch. run_m.
  rewrite Hiloc, Hws. run_m. reflexivity.
Qed.

(** The same run, with the geocoding loop described by
    [build_locations_spec]. *)
Lemma main_retrieval_run (u : string) (v dists : list Q) (idxs : list Z)
      (rows : list Row) (results : list ResultRow) :
  u <> ""%string ->
  embed_backend u = EmbOk v ->
  length v = index_d ->
  index_search (map Fin v) 5%nat = (dists, idxs) ->
  iloc metadata idxs = Some rows ->
  with_similarity rows dists = Some results ->
  exists ev sel,
    main_geocoding geocode_http results (trace_before_geocoding u results)
      = (trace_before_geocoding u results ++ ev,
         inr (map (location_of (series_max (map similarity results))
                               (series_min (map similarity results))) sel)) /\
    main metadata embed_backend index_d index_search geocode_http u []
      = show_map (map (location_of (series_max (map similarity results))
                                   (series_min (map similarity results))) sel)
                 (trace_before_geocoding u results ++ ev) /\
    subseq (map fst sel) results /\
    forallb is_geo_event ev = true /\
    Forall (fun p => truthy (fst (snd p)) && truthy (snd (snd p)) = true /\
                     exists n, resolved (geocode_http (res_name (fst p)) (res_address (fst p)) n)
                                 (fst (snd p)) (snd (snd p))) sel.
Proof.
  intros Hu Hemb Hlen Hsearch Hiloc Hws.
  rewrite (main_after_retrieval u v dists idxs rows results Hu Hemb Hlen Hsearch Hiloc Hws).
  unfold main_geocoding.
  destruct (build_locations_spec geocode_http (series_max (map similarity results))
              (series_min (map similarity results)) results [] (trace_before_geocoding u results))
    as (ev & sel & Hb & Hsub & Hm & Hsel).
  exists ev, sel. rewrite (bind_run _ _ _ _ _ Hb). rewrite Hb.
  repeat split; assumption.
Qed.

End Main.

Lemma table_shown_app (a b : list event) : table_shown (a ++ b) = table_shown a ++ table_shown b.
Proof. unfold table_shown. apply flat_map_app. Qed.

Lemma geo_events_show_no_table (ev : list event) :
  forallb is_geo_event ev = true -> table_shown ev = [].
Proof.
  induction ev as [|e ev IH]; cbn; [reflexivity|].
  intros H. apply andb_prop in H as [He Hev].
  destruct e; try discriminate; cbn; apply IH; exact Hev.
Qed.

(** What [show_map] adds to the trace. *)
Lemma show_map_run (locs : list Location) (tr : list event) :
  show_map locs tr = match locs with
                     | [] => (tr ++ [EvWarning MsgNoLocations], inr tt)
                     | _ :: _ => (tr, inl NameError)
                     end.
Proof. destruct locs; reflexivity. Qed.

(** When retrieval succeeds, the table [main] shows is [results], whatever
    happens afterwards. *)
Lemma main_table_shown
    (metadata : list Row) (embed_backend : string -> emb_resp) (index_d : nat)
    (index_search : list num -> nat -> list Q * list Z)
    (geocode_http : string -> string -> nat -> geo_resp)
    (u : string) (v dists : list Q) (idxs : list Z)
    (rows : list Row) (results : list ResultRow) :
  u <> ""%string ->
  embed_backend u = EmbOk v ->
  length v = index_d ->
  index_search (map Fin v) 5%nat = (dists, idxs) ->
  iloc metadata idxs = Some rows ->
  with_similarity rows dists = Some results ->
  table_shown (fst (main metadata embed_backend index_d index_search geocode_http u [])) = results.
Proof.
  intros Hu Hemb Hlen Hsearch Hiloc Hws.
  destruct (main_retrieval_run metadata embed_backend index_d index_search geocode_http
              u v dists idxs rows results Hu Hemb Hlen Hsearch Hiloc Hws)
    as (ev & sel & _ & Hmain & _ & Hgeo & _).
  rewrite Hmain, show_map_run.
  pose proof (geo_events_show_no_table ev Hgeo) as Ht.
  destruct (map _ sel); cbn [fst]; rewrite !table_shown_app, Ht; cbn; rewrite ?app_nil_r; reflexivity.
Qed.

(** *** Normalisation (line 96) *)

Lemma fold_max_bounds (xs : list Q) :
  forall acc, acc <= fold_left Qmax xs acc /\ (forall x, In x xs -> x <= fold_left Qmax xs acc).
Proof.
  induction xs as [|a xs IH]; intros acc; cbn.
  - split; [apply Qle_refl | intros x []].
  - destruct (IH (Qmax acc a)) as [H1 H2].
    split.
    + eapply Qle_trans; [apply Q.le_max_l | exact H1].
    + intros x [<-|Hx]; [|auto].
      eapply Qle_trans; [apply Q.le_max_r | exact H1].
Qed.

Lemma fold_min_bounds (xs : list Q) :
  forall acc, fold_left Qmin xs acc <= acc /\ (forall x, In x xs -> fold_left Qmin xs acc <= x).
Proof.
  induction xs as [|a xs IH]; intros acc; cbn.
  - split; [apply Qle_refl | intros x []].
  - destruct (IH (Qmin acc a)) as [H1 H2].
    split.
    + eapply Qle_trans; [exact H1 | apply Q.le_min_l].
    + intros x [<-|Hx]; [|auto].
      eapply Qle_trans; [exact H1 | apply Q.le_min_r].
Qed.

(** Every value of a column lies between its [min()] and its [max()]. *)
Lemma series_bounds (xs : list Q) (x : Q) :
  In x xs -> series_min xs <= x /\ x <= series_max xs.
Proof.
  destruct xs as [|a xs]; [intros []|].
  intros Hx. cbn.
  destruct (fold_max_bounds xs a) as [Ha1 Ha2].
  destruct (fold_min_bounds xs a) as [Hi1 Hi2].
  destruct Hx as [<-|Hx]; split; auto.
Qed.

Lemma normalize_in_unit (mx mn s : Q) :
  mn <= s -> s <= mx -> ~ mx == mn -> in_unit (normalize mx mn s).
Proof.
  intros H1 H2 H3. unfold normalize, npdiv.
  destruct (Qeq_bool (mx - mn) 0) eqn:E.
  - apply Qeq_bool_eq in E. exfalso. apply H3. lra.
  - cbn. split.
    + apply Qle_shift_div_l; lra.
    + apply Qle_shift_div_r; lra.
Qed.

Lemma normalize_formula (mx mn s : Q) :
  mn < mx -> normalize mx mn s = Fin ((s - mn) / (mx - mn)).
Proof.
  intros H. unfold normalize, npdiv.
  destruct (Qeq_bool (mx - mn) 0) eqn:E; [|reflexivity].
  apply Qeq_bool_eq in E. lra.
Qed.

Lemma normalize_monotone (mx mn a b : Q) :
  mn <= b -> b < a -> a <= mx ->
  exists qa qb, normalize mx mn a = Fin qa /\ normalize mx mn b = Fin qb /\ qb <= qa.
Proof.
  intros H1 H2 H3.
  rewrite !normalize_formula by lra.
  do 2 eexists. split; [reflexivity|]. split; [reflexivity|].
  unfold Qdiv. apply Qmult_le_compat_r; [lra|].
  apply Qinv_le_0_compat. lra.
Qed.

Lemma normalize_degenerate (mx mn s : Q) :
  mx == mn -> s == mn -> normalize mx mn s = NaN.
Proof.
  intros H1 H2. unfold normalize, npdiv.
  replace (Qeq_bool (mx - mn) 0) with true by (symmetry; apply Qeq_bool_iff; lra).
  replace (Qeq_bool (s - mn) 0) with true by (symmetry; apply Qeq_bool_iff; lra).
  reflexivity.
Qed.

(** *** Retrieval *)

Lemma iloc_positional (md : list Row) :
  forall (idxs : list Z) (rows : list Row),
    iloc md idxs = Some rows -> Forall2 (fun i r => iloc_one md i = Some r) idxs rows.
Proof.
  induction idxs as [|i idxs IH]; intros rows H; cbn in H.
  - injection H as <-. constructor.
  - destruct (iloc_one md i) as [r|] eqn:E1; [|discriminate].
    destruct (iloc md idxs) as [rs|] eqn:E2; [|discriminate].
    injection H as <-. constructor; auto.
Qed.

Lemma with_similarity_columns :
  forall (rows : list Row) (dists : list Q) (results : list ResultRow),
    with_similarity rows dists = Some results ->
    map result_key results = map row_key rows /\
    map similarity results = map raw_similarity dists.
Proof.
  induction rows as [|r rows IH]; intros [|d dists] results H; cbn in H;
    try discriminate.
  - injection H as <-. split; reflexivity.
  - destruct (with_similarity rows dists) as [out|] eqn:E; [|discriminate].
    injection H as <-. destruct (IH dists out E) as [H1 H2].
    cbn. rewrite H1, H2. split; reflexivity.
Qed.

Lemma raw_similarity_antitone (d1 d2 : Q) :
  d1 <= d2 -> raw_similarity d2 <= raw_similarity d1.
Proof.
  unfold raw_similarity, Qdiv. intros H.
  assert (H2 : d1 * / 2 <= d2 * / 2) by (apply Qmult_le_compat_r; [exact H|discriminate]).
  lra.
Qed.

(** Nearest-first distances give a most-similar-first column. *)
Lemma similarity_sorted (dists : list Q) :
  Sorted Qle dists -> Sorted (fun a b => b <= a) (map raw_similarity dists).
Proof.
  induction 1 as [|d ds Hs IH Hd]; cbn; constructor; [exact IH|].
  destruct Hd as [|d' ds' Hle]; cbn; constructor.
  apply raw_similarity_antitone. exact Hle.
Qed.

Lemma nth_error_last_index {A : Type} (d : A) :
  forall l : list A, l <> [] -> nth_error l (length l - 1) = Some (last l d).
Proof.
  induction l as [|a [|b t] IH]; intros Hne; [congruence|reflexivity|].
  cbn [length]. replace (S (S (length t)) - 1)%nat with (S (length (b :: t) - 1)) by (cbn; lia).
  cbn [nth_error]. rewrite IH by discriminate. reflexivity.
Qed.

Lemma iloc_one_minus_one (md : list Row) (r0 : Row) :
  md <> [] -> iloc_one md (-1) = Some (last md r0).
Proof.
  intros Hne. unfold iloc_one.
  assert (Hlen : (1 <= length md)%nat) by (destruct md; [congruence|cbn; lia]).
  replace ((0 <=? -1)%Z && (-1 <? Z.of_nat (length md))%Z) with false by reflexivity.
  replace ((- Z.of_nat (length md) <=? -1)%Z && (-1 <? 0)%Z) with true
    by (symmetry; apply andb_true_intro; split; [apply Z.leb_le; lia|reflexivity]).
  replace (Z.to_nat (Z.of_nat (length md) + -1)) with (length md - 1)%nat by lia.
  apply nth_error_last_index. exact Hne.
Qed.

Lemma iloc_total (md : list Row) :
  md <> [] ->
  forall idxs : list Z,
    Forall (fun i => i = (-1)%Z \/ (0 <= i < Z.of_nat (length md))%Z) idxs ->
    exists rows, iloc md idxs = Some rows /\ length rows = length idxs.
Proof.
  intros Hne idxs Hall. induction Hall as [|i idxs Hi Hall IH]; [exists []; split; reflexivity|].
  destruct IH as (rows & Hrows & Hlen).
  assert (Hone : exists r, iloc_one md i = Some r).
  { destruct Hi as [->|Hi].
    - exists (last md (mkRow "" "" "")). apply iloc_one_minus_one. exact Hne.
    - unfold iloc_one.
      replace ((0 <=? i)%Z && (i <? Z.of_nat (length md))%Z) with true
        by (symmetry; apply andb_true_intro; split; [apply Z.leb_le|apply Z.ltb_lt]; lia).
      destruct (nth_error md (Z.to_nat i)) as [r|] eqn:E; [exists r; reflexivity|].
      apply nth_error_None in E. lia. }
  destruct Hone as [r Hr].
  exists (r :: rows). cbn. rewrite Hr, Hrows. split; [reflexivity|cbn; lia].
Qed.

Lemma with_similarity_total :
  forall (rows : list Row) (dists : list Q),
    length rows = length dists -> exists results, with_similarity rows dists = Some results.
Proof.
  induction rows as [|r rows IH]; intros [|d dists] H; cbn in H; try discriminate.
  - exists []. reflexivity.
  - injection H as H. destruct (IH dists H) as [out Hout].
    eexists. cbn. rewrite Hout. reflexivity.
Qed.

Lemma iloc_with_similarity_keys (md : list Row) :
  forall (idxs : list Z) (rows : list Row) (dists : list Q) (results : list ResultRow),
    iloc md idxs = Some rows -> with_similarity rows dists = Some results ->
    Forall2 (fun i res => exists r, iloc_one md i = Some r /\ result_key res = row_key r)
      idxs results.
Proof.
  induction idxs as [|i idxs IH]; intros rows dists results Hi Hw; cbn in Hi.
  - injection Hi as <-. destruct dists; cbn in Hw; [|discriminate].
    injection Hw as <-. constructor.
  - destruct (iloc_one md i) as [r|] eqn:E1; [|discriminate].
    destruct (iloc md idxs) as [rs|] eqn:E2; [|discriminate].
    injection Hi as <-. destruct dists as [|d dists]; cbn in Hw; [discriminate|].
    destruct (with_similarity rs dists) as [out|] eqn:E3; [|discriminate].
    injection Hw as <-. constructor.
    + exists r. split; [first [exact E1 | reflexivity] | reflexivity].
    + eapply IH; [first [exact E2 | reflexivity] | exact E3].
Qed.

(* ------------------------------------------------------------------ *)
(** ** The claims *)

(** C1 (code defect).  When every neighbour is at the same distance the
    raw similarities are all equal, [max_similarity - min_similarity] is
    [0] and line 96 divides [0] by [0]: every entry of [locations] gets
    [NaN] instead of a defined constant.  Evaluated on five neighbours at
    distance 0.5, all geocoded: the table shows five equal similarities
    [0.75], the loop of lines 92-105 builds five entries, all [NaN], and
    the run then ends in the [NameError] of the map page. *)
Theorem equal_similarities_normalize_to_nan :
  let out := main fixture_metadata fixture_embed 3 fixture_search_tied fixture_geocode_ok "cafe" [] in
  let results := table_shown (fst out) in
  Forall (fun s => s == 3 # 4) (map similarity results) /\
  (exists ev locs,
     main_geocoding fixture_geocode_ok results (trace_before_geocoding "cafe" results)
       = (ev, inr locs) /\
     map loc_similarity locs = [NaN; NaN; NaN; NaN; NaN]) /\
  snd out = inl NameError.
Proof.
  cbv zeta. split; [|split].
  - vm_compute. repeat constructor.
  - do 2 eexists. split; reflexivity.
  - vm_compute. reflexivity.
Qed.

(** C3 (code defect, the one of C1).  An entry of [locations] whose
    normalised similarity is not in [0, 1]: five neighbours identical to
    the query give [0 / 0 = NaN]. *)
Theorem normalized_similarity_outside_unit_interval :
  let results := table_shown (fst (main fixture_metadata fixture_embed 3 fixture_search_identical
                                        fixture_geocode_ok "cafe" [])) in
  exists ev locs l,
    main_geocoding fixture_geocode_ok results (trace_before_geocoding "cafe" results)
      = (ev, inr locs) /\
    In l locs /\ ~ in_unit (loc_similarity l).
Proof.
  cbv zeta. do 3 eexists. split; [reflexivity|]. split.
  - left. reflexivity.
  - vm_compute. intros [].
Qed.

(** C6.  [raw_similarity = 1 - d/2] maps [0], [1], [2] to [1], [0.5], [0];
    for the distances [{0, 0.4, 0.8, 1.2, 2.0}] the table shows the raw
    similarities [{1.0, 0.8, 0.6, 0.4, 0.0}] and the loop of lines 92-105
    builds [locations] with the normalised ones [{1.0, 0.8, 0.6, 0.4, 0.0}],
    both in the nearest-first order.  (The run then ends in the
    [NameError] of the map page, so [locations] is never displayed.) *)
Theorem similarity_fixture_values :
  raw_similarity 0 == 1 /\ raw_similarity 1 == 1 # 2 /\ raw_similarity 2 == 0 /\
  (let out := main fixture_metadata fixture_embed 3 fixture_search_spread
                   fixture_geocode_ok "cafe" [] in
   let results := table_shown (fst out) in
   Forall2 Qeq (map similarity results) [1; 4 # 5; 3 # 5; 2 # 5; 0] /\
   map result_key results = map row_key fixture_metadata /\
   (exists ev locs,
      main_geocoding fixture_geocode_ok results (trace_before_geocoding "cafe" results)
        = (ev, inr locs) /\
      Forall2 num_eq (map loc_similarity locs) [1; 4 # 5; 3 # 5; 2 # 5; 0] /\
      map loc_name locs = map name fixture_metadata) /\
   snd out = inl NameError).
Proof.
  split; [reflexivity|]. split; [reflexivity|]. split; [reflexivity|].
  cbv zeta. split; [|split; [|split]].
  - vm_compute. repeat constructor.
  - vm_compute. reflexivity.
  - do 2 eexists. split; [reflexivity|].
    split; [vm_compute; repeat constructor | vm_compute; reflexivity].
  - vm_compute. reflexivity.
Qed.

(** C7 (counterexample).  With two stored reviews and [k = 5], the table
    still has five rows: the padding labels [-1] are not filtered out. *)
Lemma padded_results_not_filtered :
  length fixture_small_metadata = 2%nat /\
  length (table_shown (fst (main fixture_small_metadata fixture_embed 3 fixture_search_padded
                                 fixture_geocode_ok "cafe" []))) = 5%nat.
Proof. split; vm_compute; reflexivity. Qed.




(** C4.  When retrieval succeeds, the table shows the rows in the order
    of the labels returned by the index search, each with the similarity
    converted from its own distance; nearest-first distances therefore give
    a most-similar-first table.  The entries of [locations], which carry
    the normalised similarities, are built from an in-order subsequence of
    the table rows: nothing is re-sorted. *)
Theorem neighbour_order_preserved
    (metadata : list Row) (embed_backend : string -> emb_resp) (index_d : nat)
    (index_search : list num -> nat -> list Q * list Z)
    (geocode_http : string -> string -> nat -> geo_resp)
    (u : string) (v dists : list Q) (idxs : list Z)
    (rows : list Row) (results : list ResultRow) :
  u <> ""%string ->
  embed_backend u = EmbOk v ->
  length v = index_d ->
  index_search (map Fin v) 5%nat = (dists, idxs) ->
  iloc metadata idxs = Some rows ->
  with_similarity rows dists = Some results ->
  Forall2 (fun i r => iloc_one metadata i = Some r) idxs rows /\
  map result_key results = map row_key rows /\
  map similarity results = map raw_similarity dists /\
  (Sorted Qle dists -> Sorted (fun a b => b <= a) (map similarity results)) /\
  table_shown (fst (main metadata embed_backend index_d index_search geocode_http u [])) = results /\
  exists ev sel,
    main_geocoding geocode_http results (trace_before_geocoding u results)
      = (trace_before_geocoding u results ++ ev,
         inr (map (location_of (series_max (map similarity results))
                               (series_min (map similarity results))) sel)) /\
    subseq (map fst sel) results.
Proof.
  intros Hu Hemb Hlen Hsearch Hiloc Hws.
  destruct (with_similarity_columns rows dists results Hws) as [Hkeys Hsims].
  destruct (main_retrieval_run metadata embed_backend index_d index_search geocode_http
              u v dists idxs rows results Hu Hemb Hlen Hsearch Hiloc Hws)
    as (ev & sel & Hg & _ & Hsub & _ & _).
  split; [apply iloc_positional; exact Hiloc|].
  split; [exact Hkeys|]. split; [exact Hsims|].
  split; [intros Hs; rewrite Hsims; apply similarity_sorted; exact Hs|].
  split; [exact (main_table_shown metadata embed_backend index_d index_search geocode_http
                   u v dists idxs rows results Hu Hemb Hlen Hsearch Hiloc Hws)|].
  exists ev, sel. split; assumption.
Qed.

Lemma neighbour_order_preserved_witness :
  Forall2 (fun i r => iloc_one fixture_metadata i = Some r) [0; 1; 2; 3; 4]%Z fixture_metadata /\
  map result_key fixture_results_spread = map row_key fixture_metadata /\
  map similarity fixture_results_spread = map raw_similarity [0; 2 # 5; 4 # 5; 6 # 5; 2] /\
  (Sorted Qle [0; 2 # 5; 4 # 5; 6 # 5; 2] ->
   Sorted (fun a b => b <= a) (map similarity fixture_results_spread)) /\
  table_shown (fst (main fixture_metadata fixture_embed 3 fixture_search_spread
                         fixture_geocode_ok "cafe" [])) = fixture_results_spread /\
  exists ev sel,
    main_geocoding fixture_geocode_ok fixture_results_spread
                   (trace_before_geocoding "cafe" fixture_results_spread)
      = (trace_before_geocoding "cafe" fixture_results_spread ++ ev,
         inr (map (location_of (series_max (map similarity fixture_results_spread))
                               (series_min (map similarity fixture_results_spread))) sel)) /\
    subseq (map fst sel) fixture_results_spread.
Proof.
  apply (neighbour_order_preserved fixture_metadata fixture_embed 3 fixture_search_spread
           fixture_geocode_ok "cafe" [1; 0; 0] [0; 2 # 5; 4 # 5; 6 # 5; 2] [0; 1; 2; 3; 4]%Z
           fixture_metadata fixture_results_spread);
    [discriminate | reflexivity | reflexivity | reflexivity | vm_compute; reflexivity
    | vm_compute; reflexivity].
Defined.

(** C5.  Normalisation is order-preserving within a result set: of two
    rows of [results], the one with the larger raw similarity gets an
    entry of [locations] whose normalised similarity is at least the other's (both are
    finite numbers). *)
Theorem normalization_order_preserving (results : list ResultRow) (ra rb : ResultRow)
    (la lo la' lo' : Q) :
  In ra results -> In rb results -> similarity rb < similarity ra ->
  exists qa qb,
    loc_similarity (mk_location (series_max (map similarity results))
                                (series_min (map similarity results)) ra la lo) = Fin qa /\
    loc_similarity (mk_location (series_max (map similarity results))
                                (series_min (map similarity results)) rb la' lo') = Fin qb /\
    qb <= qa.
Proof.
  intros Ha Hb Hlt. cbn [loc_similarity mk_location].
  destruct (series_bounds (map similarity results) (similarity ra)) as [_ Hamax];
    [apply in_map; exact Ha|].
  destruct (series_bounds (map similarity results) (similarity rb)) as [Hbmin _];
    [apply in_map; exact Hb|].
  apply normalize_monotone; assumption.
Qed.

Lemma normalization_order_preserving_witness :
  exists qa qb,
    loc_similarity (mk_location (series_max [1; 1 # 2; 0]) (series_min [1; 1 # 2; 0])
                      (mkResultRow "a" "a" "a" 1) 37 127) = Fin qa /\
    loc_similarity (mk_location (series_max [1; 1 # 2; 0]) (series_min [1; 1 # 2; 0])
                      (mkResultRow "b" "b" "b" (1 # 2)) 37 127) = Fin qb /\
    qb <= qa.
Proof.
  apply (normalization_order_preserving
           [mkResultRow "a" "a" "a" 1; mkResultRow "b" "b" "b" (1 # 2); mkResultRow "c" "c" "c" 0]
           (mkResultRow "a" "a" "a" 1) (mkResultRow "b" "b" "b" (1 # 2)) 37 127 37 127).
  - left. reflexivity.
  - right. left. reflexivity.
  - vm_compute. reflexivity.
Defined.

(** C7 (as amended).  Padded labels are not filtered: when the search
    returns, next to valid positions, FAISS's padding label [-1], the
    table has one row per returned label, and each padded label shows the
    last metadata row ([iloc[-1]]). *)
Theorem padded_labels_select_last_row
    (metadata : list Row) (embed_backend : string -> emb_resp) (index_d : nat)
    (index_search : list num -> nat -> list Q * list Z)
    (geocode_http : string -> string -> nat -> geo_resp)
    (u : string) (v dists : list Q) (idxs : list Z) (r0 : Row) :
  u <> ""%string ->
  embed_backend u = EmbOk v ->
  length v = index_d ->
  index_search (map Fin v) 5%nat = (dists, idxs) ->
  metadata <> [] ->
  length dists = length idxs ->
  Forall (fun i => i = (-1)%Z \/ (0 <= i < Z.of_nat (length metadata))%Z) idxs ->
  exists results,
    table_shown (fst (main metadata embed_backend index_d index_search geocode_http u [])) = results /\
    length results = length idxs /\
    Forall2 (fun i r => i = (-1)%Z -> result_key r = row_key (last metadata r0)) idxs results.
Proof.
  intros Hu Hemb Hlenv Hsearch Hne Hlen Hall.
  destruct (iloc_total metadata Hne idxs Hall) as (rows & Hiloc & Hrows).
  destruct (with_similarity_total rows dists) as [results Hws]; [lia|].
  exists results.
  split; [exact (main_table_shown metadata embed_backend index_d index_search geocode_http
                   u v dists idxs rows results Hu Hemb Hlenv Hsearch Hiloc Hws)|].
  pose proof (iloc_with_similarity_keys metadata idxs rows dists results Hiloc Hws) as Hk.
  split; [apply Forall2_length in Hk; lia|].
  clear - Hk Hne. induction Hk as [|i res idxs results (r & Hr & Hkey) Hk IH]; constructor; [|exact IH].
  intros ->. rewrite (iloc_one_minus_one metadata r0 Hne) in Hr.
  injection Hr as <-. exact Hkey.
Qed.

Lemma padded_labels_select_last_row_witness :
  exists results,
    table_shown (fst (main fixture_small_metadata fixture_embed 3 fixture_search_padded
                           fixture_geocode_ok "cafe" [])) = results /\
    length results = 5%nat /\
    Forall2 (fun i r => i = (-1)%Z ->
                        result_key r = row_key (last fixture_small_metadata (mkRow "" "" "")))
      [0; 1; -1; -1; -1]%Z results.
Proof.
  apply (padded_labels_select_last_row fixture_small_metadata fixture_embed 3 fixture_search_padded
           fixture_geocode_ok "cafe" [1; 0; 0] [0; 1 # 2; flt_max; flt_max; flt_max]
           [0; 1; -1; -1; -1]%Z (mkRow "" "" "")).
  - discriminate.
  - reflexivity.
  - reflexivity.
  - reflexivity.
  - discriminate.
  - reflexivity.
  - repeat apply Forall_cons; try apply Forall_nil;
      first [left; reflexivity | right; simpl; lia].
Defined.

(** C8.  When retrieval succeeds, the ranked table is shown before any
    geocoding request, whatever the geocoding service answers, and no
    later output is a table.  When no geocoding answer resolves to
    non-zero coordinates, [locations] stays empty: the run ends with the
    warning instead of a map and returns normally. *)
Theorem ranked_list_independent_of_geocoding
    (metadata : list Row) (embed_backend : string -> emb_resp) (index_d : nat)
    (index_search : list num -> nat -> list Q * list Z)
    (geocode_http : string -> string -> nat -> geo_resp)
    (u : string) (v dists : list Q) (idxs : list Z)
    (rows : list Row) (results : list ResultRow) :
  u <> ""%string ->
  embed_backend u = EmbOk v ->
  length v = index_d ->
  index_search (map Fin v) 5%nat = (dists, idxs) ->
  iloc metadata idxs = Some rows ->
  with_similarity rows dists = Some results ->
  (exists ev,
      fst (main metadata embed_backend index_d index_search geocode_http u [])
        = trace_before_geocoding u results ++ ev /\
      table_shown ev = []) /\
  ((forall nm ad n la lo, resolved (geocode_http nm ad n) la lo -> truthy la && truthy lo = false) ->
   exists ev,
     main metadata embed_backend index_d index_search geocode_http u []
       = (trace_before_geocoding u results ++ ev ++ [EvWarning MsgNoLocations], inr tt)).
Proof.
  intros Hu Hemb Hlen Hsearch Hiloc Hws.
  destruct (main_retrieval_run metadata embed_backend index_d index_search geocode_http
              u v dists idxs rows results Hu Hemb Hlen Hsearch Hiloc Hws)
    as (ev & sel & _ & Hmain & _ & Hgeo & Hsel).
  pose proof (geo_events_show_no_table ev Hgeo) as Ht.
  rewrite Hmain, show_map_run. split.
  - destruct (map _ sel).
    + exists (ev ++ [EvWarning MsgNoLocations]). cbn [fst].
      rewrite app_assoc. split; [reflexivity|].
      rewrite table_shown_app, Ht. reflexivity.
    + exists ev. split; [reflexivity|exact Ht].
  - intros Hnone. destruct sel as [|p sel].
    + exists ev. cbn [map]. rewrite app_assoc. reflexivity.
    + apply Forall_inv in Hsel. destruct Hsel as (Htr & n & Hres).
      rewrite (Hnone _ _ _ _ _ Hres) in Htr. discriminate.
Qed.

Lemma ranked_list_independent_of_geocoding_witness :
  (exists ev,
      fst (main fixture_metadata fixture_embed 3 fixture_search_spread fixture_geocode_down "cafe" [])
        = trace_before_geocoding "cafe" fixture_results_spread ++ ev /\
      table_shown ev = []) /\
  ((forall nm ad n la lo, resolved (fixture_geocode_down nm ad n) la lo ->
                          truthy la && truthy lo = false) ->
   exists ev,
     main fixture_metadata fixture_embed 3 fixture_search_spread fixture_geocode_down "cafe" []
       = (trace_before_geocoding "cafe" fixture_results_spread ++ ev ++ [EvWarning MsgNoLocations],
          inr tt)).
Proof.
  apply (ranked_list_independent_of_geocoding fixture_metadata fixture_embed 3 fixture_search_spread
           fixture_geocode_down "cafe" [1; 0; 0] [0; 2 # 5; 4 # 5; 6 # 5; 2] [0; 1; 2; 3; 4]%Z
           fixture_metadata fixture_results_spread);
    [discriminate | reflexivity | reflexivity | reflexivity | vm_compute; reflexivity
    | vm_compute; reflexivity].
Defined.

(** C9.  [get_location] makes at most [max_retries] HTTP requests, sleeps
    exactly 2 seconds between two consecutive requests and nowhere else
    (one sleep fewer than requests), raises nothing and returns a
    coordinate pair or [(None, None)], whatever the service answers. *)
Theorem get_location_bounded_retries
    (geocode_http : string -> string -> nat -> geo_resp)
    (nm ad : string) (max_retries : nat) (tr : list event) :
  (1 <= max_retries)%nat ->
  exists ev g,
    get_location geocode_http nm ad max_retries tr = (tr ++ ev, inr g) /\
    ((exists lat lng, g = Coords lat lng) \/ g = NoneNone) /\
    (count_http ev <= max_retries)%nat /\
    (count_sleep ev + 1)%nat = count_http ev /\
    (forall s, In (EvSleep s) ev -> s = 2%nat).
Proof.
  intros H.
  destruct (get_location_loop_bounded geocode_http nm ad max_retries max_retries 0 tr)
    as (ev & g & Hrun & Hg & Hh & Hs & Hsl & _ & _); [exact H|reflexivity|].
  exists ev, g. repeat split; assumption.
Qed.

Lemma get_location_bounded_retries_witness :
  exists ev g,
    get_location fixture_geocode_down "Namsan Tower" "Yongsan 105" 3 [] = ([] ++ ev, inr g) /\
    ((exists lat lng, g = Coords lat lng) \/ g = NoneNone) /\
    (count_http ev <= 3)%nat /\
    (count_sleep ev + 1)%nat = count_http ev /\
    (forall s, In (EvSleep s) ev -> s = 2%nat).
Proof.
  apply (get_location_bounded_retries fixture_geocode_down "Namsan Tower" "Yongsan 105" 3 []).
  lia.
Defined.

(** C10.  A geocoded coordinate equal to 0 (latitude or longitude) is
    treated exactly as a failed geocoding: [if lat and lng] is false, and
    the row gets no entry in [locations]. *)
Theorem zero_coordinate_excluded_like_failure
    (mx mn : Q) (row : ResultRow) (lat lng : Q) (tr : list event) :
  (lat == 0 \/ lng == 0) ->
  location_entry mx mn row (Coords lat lng) tr = location_entry mx mn row NoneNone tr /\
  location_entry mx mn row NoneNone tr = (tr, inr None).
Proof.
  intros H. split; [|reflexivity].
  unfold location_entry, truthy.
  destruct H as [H|H];
    apply Qeq_bool_iff in H; rewrite H; cbn; [reflexivity|].
  rewrite andb_false_r. reflexivity.
Qed.

Lemma zero_coordinate_excluded_like_failure_witness :
  location_entry 1 0 (mkResultRow "Null Island" "0,0" "buoy" (1 # 2)) (Coords 0 (126978 # 1000)) []
    = location_entry 1 0 (mkResultRow "Null Island" "0,0" "buoy" (1 # 2)) NoneNone [] /\
  location_entry 1 0 (mkResultRow "Null Island" "0,0" "buoy" (1 # 2)) NoneNone [] = ([], inr None).
Proof.
  apply zero_coordinate_excluded_like_failure. left. reflexivity.
Defined.

(* ------------------------------------------------------------------ *)
(** ** Further properties of the code *)

Lemma count_http_app (a b : list event) : count_http (a ++ b) = (count_http a + count_http b)%nat.
Proof. unfold count_http. rewrite filter_app, length_app. reflexivity. Qed.

Lemma count_sleep_app (a b : list event) : count_sleep (a ++ b) = (count_sleep a + count_sleep b)%nat.
Proof. unfold count_sleep. rewrite filter_app, length_app. reflexivity. Qed.

Section GeocodingBranches.

Variable geocode_http : string -> string -> nat -> geo_resp.

(** Only a [RequestException] is retried: an answer with a JSON body that
    has no usable location (a status other than ["OK"], or ["OK"] with an
    empty [results]) ends [get_location] after one request, with a warning
    for ["ZERO_RESULTS"] and an API error message otherwise. *)
Theorem get_location_json_failure_not_retried
    (nm ad : string) (max_retries : nat) (status : string) (res : list (Q * Q)) (tr : list event) :
  (1 <= max_retries)%nat ->
  geocode_http nm ad 0 = GeoJson status res ->
  ((status =? "OK")%string = false \/ res = []) ->
  get_location geocode_http nm ad max_retries tr
    = (tr ++ [EvHttpGet nm ad;
              if (status =? "ZERO_RESULTS")%string then EvWarning MsgNotFound
              else EvError (MsgApiError status)], inr NoneNone).
Proof.
  intros Hm Hresp Hfail.
  destruct max_retries as [|mr]; [lia|].
  unfold get_location. cbn [get_location_loop].
  rewrite bind_emit, Hresp.
  assert (Hsel : match (status =? "OK")%string, res with
                 | true, (lat, lng) :: _ => ret (Coords lat lng)
                 | _, _ =>
                     (if (status =? "ZERO_RESULTS")%string
                      then emit (EvWarning MsgNotFound)
                      else emit (EvError (MsgApiError status))) ;; ret NoneNone
                 end
                 = ((if (status =? "ZERO_RESULTS")%string
                     then emit (EvWarning MsgNotFound)
                     else emit (EvError (MsgApiError status))) ;; ret NoneNone)).
  { destruct Hfail as [ H | H ]; [rewrite H | subst res]; [reflexivity | destruct (status =? "OK")%string; reflexivity]. }
  rewrite Hsel.
  destruct (status =? "ZERO_RESULTS")%string;
    rewrite bind_emit; unfold ret; rewrite <- app_assoc; reflexivity.
Qed.

(** All attempts raise a [RequestException]: from iteration [attempt] on,
    one request per remaining iteration, a sleep between two of them, and
    the final failure message. *)
Lemma get_location_loop_all_fail (nm ad : string) (mr : nat) :
  (forall n, geocode_http nm ad n = GeoRequestException) ->
  forall (remaining attempt : nat) (tr : list event),
    (1 <= remaining)%nat -> (attempt + remaining)%nat = mr ->
    exists ev,
      get_location_loop geocode_http nm ad mr attempt remaining tr
        = (tr ++ ev ++ [EvError MsgGeoFailed], inr NoneNone) /\
      count_http ev = remaining /\
      count_sleep ev = (remaining - 1)%nat.
Proof.
  intros Hall. induction remaining as [|r IH]; intros attempt tr Hr Hsum; [lia|].
  cbn [get_location_loop]. rewrite bind_emit, Hall. cbv beta.
  rewrite bind_emit. cbv beta.
  destruct (Nat.ltb attempt (mr - 1)) eqn:Hlt.
  - apply Nat.ltb_lt in Hlt. rewrite bind_emit. cbv beta.
    destruct (IH (S attempt) (((tr ++ [EvHttpGet nm ad]) ++ [EvError (MsgNetworkError (S attempt))]) ++ [EvSleep 2]))
      as (ev & Hrun & Hh & Hs); [lia|lia|].
    rewrite Hrun.
    exists ([EvHttpGet nm ad; EvError (MsgNetworkError (S attempt)); EvSleep 2] ++ ev).
    rewrite <- !app_assoc. split; [reflexivity|].
    rewrite count_http_app, count_sleep_app, Hh, Hs. cbn. lia.
  - apply Nat.ltb_ge in Hlt. rewrite bind_emit. cbv beta.
    exists [EvHttpGet nm ad; EvError (MsgNetworkError (S attempt))].
    rewrite <- !app_assoc. split; [reflexivity|].
    cbn. lia.
Qed.

(** When the service is unreachable, [get_location] makes exactly
    [max_retries] requests with [max_retries - 1] sleeps between them,
    reports the failure and returns [(None, None)]. *)
Theorem get_location_all_attempts_fail (nm ad : string) (max_retries : nat) (tr : list event) :
  (1 <= max_retries)%nat ->
  (forall n, geocode_http nm ad n = GeoRequestException) ->
  exists ev,
    get_location geocode_http nm ad max_retries tr
      = (tr ++ ev ++ [EvError MsgGeoFailed], inr NoneNone) /\
    count_http ev = max_retries /\
    count_sleep ev = (max_retries - 1)%nat.
Proof.
  intros Hm Hall. apply get_location_loop_all_fail; [exact Hall|exact Hm|reflexivity].
Qed.

(** Retries until success: when the first [k] attempts raise and attempt
    [k] (counted from 0, within the budget) answers ["OK"], the loop
    returns that answer's first location after [k + 1] requests and [k]
    sleeps. *)
Lemma get_location_loop_success_after (nm ad : string) (mr k : nat) (la lo : Q) (rs : list (Q * Q)) :
  (forall j, (j < k)%nat -> geocode_http nm ad j = GeoRequestException) ->
  geocode_http nm ad k = GeoJson "OK" ((la, lo) :: rs) ->
  forall (remaining attempt : nat) (tr : list event),
    (attempt <= k)%nat -> (k < attempt + remaining)%nat -> (attempt + remaining)%nat = mr ->
    exists ev,
      get_location_loop geocode_http nm ad mr attempt remaining tr = (tr ++ ev, inr (Coords la lo)) /\
      count_http ev = (k - attempt + 1)%nat /\
      count_sleep ev = (k - attempt)%nat.
Proof.
  intros Hfail Hok. induction remaining as [|r IH]; intros attempt tr H1 H2 H3; [lia|].
  cbn [get_location_loop]. rewrite bind_emit. cbv beta.
  destruct (Nat.eq_dec attempt k) as [->|Hne].
  - rewrite Hok. cbn -[get_location_loop].
    exists [EvHttpGet nm ad]. split; [reflexivity|]. cbn. lia.
  - rewrite (Hfail attempt) by lia. rewrite bind_emit. cbv beta.
    replace (Nat.ltb attempt (mr - 1)) with true by (symmetry; apply Nat.ltb_lt; lia).
    rewrite bind_emit. cbv beta.
    destruct (IH (S attempt) (((tr ++ [EvHttpGet nm ad]) ++ [EvError (MsgNetworkError (S attempt))]) ++ [EvSleep 2]))
      as (ev & Hrun & Hh & Hs); [lia|lia|lia|].
    rewrite Hrun.
    exists ([EvHttpGet nm ad; EvError (MsgNetworkError (S attempt)); EvSleep 2] ++ ev).
    rewrite <- !app_assoc. split; [reflexivity|].
    rewrite count_http_app, count_sleep_app, Hh, Hs. cbn. lia.
Qed.

Theorem get_location_success_after_failures (nm ad : string) (max_retries k : nat)
    (la lo : Q) (rs : list (Q * Q)) (tr : list event) :
  (k < max_retries)%nat ->
  (forall j, (j < k)%nat -> geocode_http nm ad j = GeoRequestException) ->
  geocode_http nm ad k = GeoJson "OK" ((la, lo) :: rs) ->
  exists ev,
    get_location geocode_http nm ad max_retries tr = (tr ++ ev, inr (Coords la lo)) /\
    count_http ev = S k /\
    count_sleep ev = k.
Proof.
  intros Hk Hfail Hok.
  destruct (get_location_loop_success_after nm ad max_retries k la lo rs Hfail Hok
              max_retries 0 tr) as (ev & Hrun & Hh & Hs); [lia|lia|lia|].
  exists ev. unfold get_location. rewrite Hrun. split; [reflexivity|]. lia.
Qed.

End GeocodingBranches.

(** Answers used by the witnesses below. *)
Lemma get_location_json_failure_not_retried_witness :
  get_location (fun _ _ _ => GeoJson "OK" []) "Cafe Onion" "Seongsu-dong 1" 3 []
    = ([] ++ [EvHttpGet "Cafe Onion" "Seongsu-dong 1";
              if ("OK" =? "ZERO_RESULTS")%string then EvWarning MsgNotFound
              else EvError (MsgApiError "OK")], inr NoneNone).
Proof.
  apply (get_location_json_failure_not_retried (fun _ _ _ => GeoJson "OK" [])
           "Cafe Onion" "Seongsu-dong 1" 3 "OK" [] []); [lia|reflexivity|right; reflexivity].
Defined.

Lemma get_location_all_attempts_fail_witness :
  exists ev,
    get_location fixture_geocode_down "Namsan Tower" "Yongsan 105" 3 []
      = ([] ++ ev ++ [EvError MsgGeoFailed], inr NoneNone) /\
    count_http ev = 3%nat /\
    count_sleep ev = (3 - 1)%nat.
Proof.
  apply get_location_all_attempts_fail; [lia|reflexivity].
Defined.

Lemma get_location_success_after_failures_witness :
  exists ev,
    get_location (fun _ _ n => if Nat.ltb n 2 then GeoRequestException
                               else GeoJson "OK" [(375512 # 10000, 1269882 # 10000)])
      "Namsan Tower" "Yongsan 105" 3 [] = ([] ++ ev, inr (Coords (375512 # 10000) (1269882 # 10000))) /\
    count_http ev = 3%nat /\
    count_sleep ev = 2%nat.
Proof.
  apply (get_location_success_after_failures _ "Namsan Tower" "Yongsan 105" 3 2
           (375512 # 10000) (1269882 # 10000) []); [lia| |reflexivity].
  intros j Hj. destruct j as [|[|j]]; [reflexivity|reflexivity|lia].
Defined.

Lemma subseq_in {A : Type} (xs ys : list A) (x : A) : subseq xs ys -> In x xs -> In x ys.
Proof.
  induction 1 as [|y xs ys H IH|y xs ys H IH]; cbn; [tauto| |]; intros Hx.
  - right. auto.
  - destruct Hx as [<-|Hx]; [left; reflexivity|right; auto].
Qed.

Lemma subseq_length {A : Type} (xs ys : list A) : subseq xs ys -> (length xs <= length ys)%nat.
Proof. induction 1; cbn; lia. Qed.

Section Requests.

Variable geocode_http : string -> string -> nat -> geo_resp.

Ltac own_requests :=
  repeat apply Forall_cons; try apply Forall_nil;
  let Hx := fresh "Hx" in intros Hx; first [reflexivity | cbn in Hx; discriminate Hx].

(** One run of the retry loop: at least one and at most [remaining]
    requests, all for [(nm, ad)]. *)
Lemma get_location_loop_requests (nm ad : string) (mr : nat) :
  forall (remaining attempt : nat) (tr : list event),
    (1 <= remaining)%nat -> (attempt + remaining)%nat = mr ->
    exists ev g,
      get_location_loop geocode_http nm ad mr attempt remaining tr = (tr ++ ev, inr g) /\
      ((exists la lo, g = Coords la lo) \/ g = NoneNone) /\
      (1 <= count_http ev <= remaining)%nat /\
      Forall (fun e => is_http e = true -> e = EvHttpGet nm ad) ev.
Proof.
  induction remaining as [|r IH]; intros attempt tr Hr Hsum; [lia|].
  run_m.
  destruct (geocode_http nm ad attempt) as [|st res] eqn:E.
  - destruct (Nat.ltb attempt (mr - 1)) eqn:Hlt.
    + apply Nat.ltb_lt in Hlt. run_m.
      destruct (IH (S attempt) (((tr ++ [EvHttpGet nm ad]) ++ [EvError (MsgNetworkError (S attempt))]) ++ [EvSleep 2]))
        as (ev & g & Hrun & Hg & Hh & Hown); [lia|lia|].
      rewrite Hrun.
      exists ([EvHttpGet nm ad; EvError (MsgNetworkError (S attempt)); EvSleep 2] ++ ev), g.
      repeat rewrite <- app_assoc. split; [reflexivity|]. split; [exact Hg|]. split.
      * rewrite count_http_app. unfold count_http at 1. cbn. lia.
      * apply Forall_app. split; [own_requests|exact Hown].
    + run_m.
      exists [EvHttpGet nm ad; EvError (MsgNetworkError (S attempt)); EvError MsgGeoFailed], NoneNone.
      repeat rewrite <- app_assoc. split; [reflexivity|]. split; [right; reflexivity|].
      split; [unfold count_http; cbn; lia|own_requests].
  - destruct (st =? "OK")%string eqn:Eok; [destruct res as [|[la lo] res']|].
    + destruct (st =? "ZERO_RESULTS")%string; run_m;
        eexists [EvHttpGet nm ad; _], NoneNone;
        repeat rewrite <- app_assoc; (split; [reflexivity|]);
        (split; [right; reflexivity|]);
        (split; [unfold count_http; cbn; lia|own_requests]).
    + run_m. exists [EvHttpGet nm ad], (Coords la lo).
      split; [reflexivity|]. split; [left; eauto|].
      split; [unfold count_http; cbn; lia|own_requests].
    + destruct (st =? "ZERO_RESULTS")%string; run_m;
        eexists [EvHttpGet nm ad; _], NoneNone;
        repeat rewrite <- app_assoc; (split; [reflexivity|]);
        (split; [right; reflexivity|]);
        (split; [unfold count_http; cbn; lia|own_requests]).
Qed.

(** Lines 92-93 send, for every row of [results] in turn, between one
    and three geocoding requests, all for that row's name and address:
    the requests of the loop split into one block per row. *)
Theorem build_locations_requests_per_row (mx mn : Q) :
  forall (rows : list ResultRow) (acc : list Location) (tr : list event),
    exists evs locs,
      build_locations geocode_http mx mn rows acc tr = (tr ++ concat evs, inr locs) /\
      Forall2 (fun r ev => (1 <= count_http ev <= 3)%nat /\
                           Forall (fun e => is_http e = true -> e = EvHttpGet (res_name r) (res_address r)) ev)
        rows evs.
Proof.
  induction rows as [|row rows IH]; intros acc tr.
  - exists [], acc. rewrite app_nil_r. split; [reflexivity|constructor].
  - destruct (get_location_loop_requests (res_name row) (res_address row) 3 3 0 tr)
      as (ev1 & g & Hrun & Hg & Hh & Hown); [lia|lia|].
    cbn [build_locations]. rewrite (bind_run _ _ _ _ _ Hrun).
    assert (Hfin : forall acc', exists evs locs,
               build_locations geocode_http mx mn rows acc' (tr ++ ev1) = (tr ++ concat (ev1 :: evs), inr locs) /\
               Forall2 (fun r ev => (1 <= count_http ev <= 3)%nat /\
                                    Forall (fun e => is_http e = true -> e = EvHttpGet (res_name r) (res_address r)) ev)
                 rows evs).
    { intros acc'. destruct (IH acc' (tr ++ ev1)) as (evs & locs & Hb & Hf).
      exists evs, locs. rewrite Hb. cbn [concat]. rewrite app_assoc. split; [reflexivity|exact Hf]. }
    assert (Hcons : forall acc', exists evs locs,
               build_locations geocode_http mx mn rows acc' (tr ++ ev1) = (tr ++ concat evs, inr locs) /\
               Forall2 (fun r ev => (1 <= count_http ev <= 3)%nat /\
                                    Forall (fun e => is_http e = true -> e = EvHttpGet (res_name r) (res_address r)) ev)
                 (row :: rows) evs).
    { intros acc'. destruct (Hfin acc') as (evs & locs & Hb & Hf).
      exists (ev1 :: evs), locs. split; [exact Hb|]. constructor; [|exact Hf]. split; [exact Hh|exact Hown]. }
    destruct Hg as [(la & lo & ->) | ->].
    + unfold location_entry.
      destruct (truthy la && truthy lo); rewrite bind_ret_l; apply Hcons.
    + cbn [location_entry]. rewrite bind_ret_l. apply Hcons.
Qed.

End Requests.

Section NameErrorPath.

Variable geocode_http : string -> string -> nat -> geo_resp.

(** A row whose first geocoding answer is ["OK"] with non-zero
    coordinates puts an entry into [locations]. *)
Lemma build_locations_nonempty (mx mn : Q) :
  forall (rows : list ResultRow) (acc : list Location) (tr : list event)
         (r : ResultRow) (la lo : Q) (rs : list (Q * Q)),
    In r rows ->
    geocode_http (res_name r) (res_address r) 0 = GeoJson "OK" ((la, lo) :: rs) ->
    truthy la && truthy lo = true ->
    exists ev locs,
      build_locations geocode_http mx mn rows acc tr = (tr ++ ev, inr locs) /\ locs <> [].
Proof.
  induction rows as [|row rows IH]; intros acc tr r la lo rs Hin Hok Ht; [destruct Hin|].
  destruct Hin as [->|Hin].
  - destruct (get_location_loop_success_after geocode_http (res_name r) (res_address r) 3 0 la lo rs
                (fun j Hj => False_ind _ (Nat.nlt_0_r j Hj)) Hok 3 0 tr)
      as (ev1 & Hrun & _ & _); [lia|lia|lia|].
    cbn [build_locations]. rewrite (bind_run _ _ _ _ _ Hrun).
    unfold location_entry. rewrite Ht, bind_ret_l.
    destruct (build_locations_spec geocode_http mx mn rows (acc ++ [mk_location mx mn r la lo]) (tr ++ ev1))
      as (ev2 & sel & Hb & _).
    rewrite Hb. exists (ev1 ++ ev2), ((acc ++ [mk_location mx mn r la lo]) ++ map (location_of mx mn) sel).
    rewrite <- app_assoc. split; [reflexivity|].
    intros H. apply (f_equal (@length _)) in H. rewrite !length_app in H. cbn in H. lia.
  - destruct (get_location_loop_bounded geocode_http (res_name row) (res_address row) 3 3 0 tr)
      as (ev1 & g & Hrun & Hg & _); [lia|lia|].
    cbn [build_locations]. rewrite (bind_run _ _ _ _ _ Hrun).
    assert (Hrest : forall acc', exists ev locs,
               build_locations geocode_http mx mn rows acc' (tr ++ ev1) = (tr ++ ev, inr locs) /\ locs <> []).
    { intros acc'. destruct (IH acc' (tr ++ ev1) r la lo rs Hin Hok Ht) as (ev2 & locs & Hb & Hne).
      exists (ev1 ++ ev2), locs. rewrite Hb, app_assoc. split; [reflexivity|exact Hne]. }
    destruct Hg as [(la' & lo' & ->) | ->].
    + unfold location_entry.
      destruct (truthy la' && truthy lo'); rewrite bind_ret_l; apply Hrest.
    + cbn [location_entry]. rewrite bind_ret_l. apply Hrest.
Qed.

End NameErrorPath.

(** A label the metadata cannot resolve (outside [-n, n)) makes
    [metadata.iloc] raise: [main] stops with an [IndexError] right after
    the index search, before showing any table or geocoding. *)
Theorem main_unresolvable_label_raises
    (metadata : list Row) (embed_backend : string -> emb_resp) (index_d : nat)
    (index_search : list num -> nat -> list Q * list Z)
    (geocode_http : string -> string -> nat -> geo_resp)
    (u : string) (v dists : list Q) (idxs : list Z) :
  u <> ""%string ->
  embed_backend u = EmbOk v ->
  length v = index_d ->
  index_search (map Fin v) 5%nat = (dists, idxs) ->
  iloc metadata idxs = None ->
  main metadata embed_backend index_d index_search geocode_http u []
    = ([EvTitle; EvEmbedCall u; EvWrite MsgComputing; EvSearch 5], inl IndexError).
Proof.
  intros Hu Hemb Hlen Hsearch Hiloc.
  assert (Hu' : (u =? "")%string = false) by (apply String.eqb_neq; exact Hu).
  unfold main, get_embedding, to_query_vector, faiss_search, iloc_M.
  rewrite Hu', Hemb. run_m.
  rewrite length_map, Hlen, Nat.eqb_refl. run_m.
  rewrite Hsearch. run_m.
  rewrite Hiloc. reflexivity.
Qed.

Lemma main_unresolvable_label_raises_witness :
  main [] fixture_embed 3 fixture_search_spread fixture_geocode_ok "cafe" []
    = ([EvTitle; EvEmbedCall "cafe"; EvWrite MsgComputing; EvSearch 5], inl IndexError).
Proof.
  apply (main_unresolvable_label_raises [] fixture_embed 3 fixture_search_spread fixture_geocode_ok
           "cafe" [1; 0; 0] [0; 2 # 5; 4 # 5; 6 # 5; 2] [0; 1; 2; 3; 4]%Z);
    [discriminate|reflexivity|reflexivity|reflexivity|reflexivity].
Defined.

(** An embedding whose length differs from the index dimension fails the
    dimension check of [index.search]: [main] stops with an
    [AssertionError] right after calling the search. *)
Theorem main_dimension_mismatch_raises
    (metadata : list Row) (embed_backend : string -> emb_resp) (index_d : nat)
    (index_search : list num -> nat -> list Q * list Z)
    (geocode_http : string -> string -> nat -> geo_resp)
    (u : string) (v : list Q) :
  u <> ""%string ->
  embed_backend u = EmbOk v ->
  length v <> index_d ->
  main metadata embed_backend index_d index_search geocode_http u []
    = ([EvTitle; EvEmbedCall u; EvWrite MsgComputing; EvSearch 5], inl AssertionError).
Proof.
  intros Hu Hemb Hlen.
  assert (Hu' : (u =? "")%string = false) by (apply String.eqb_neq; exact Hu).
  assert (Hd : Nat.eqb (length (map Fin v)) index_d = false)
    by (apply Nat.eqb_neq; rewrite length_map; exact Hlen).
  unfold main, get_embedding, to_query_vector, faiss_search.
  rewrite Hu', Hemb. run_m. rewrite Hd. reflexivity.
Qed.

Lemma main_dimension_mismatch_raises_witness :
  main fixture_metadata fixture_embed 1536 fixture_search_spread fixture_geocode_ok "cafe" []
    = ([EvTitle; EvEmbedCall "cafe"; EvWrite MsgComputing; EvSearch 5], inl AssertionError).
Proof.
  apply (main_dimension_mismatch_raises fixture_metadata fixture_embed 1536 fixture_search_spread
           fixture_geocode_ok "cafe" [1; 0; 0]); [discriminate|reflexivity|discriminate].
Defined.

(** As soon as one row of the table is geocoded (first answer ["OK"],
    non-zero coordinates), [locations] is non-empty and the map page's
    f-string raises a [NameError]: [main] ends with that exception after
    the table and the geocoding requests, and no map is shown. *)
Theorem main_raises_name_error_when_a_row_resolves
    (metadata : list Row) (embed_backend : string -> emb_resp) (index_d : nat)
    (index_search : list num -> nat -> list Q * list Z)
    (geocode_http : string -> string -> nat -> geo_resp)
    (u : string) (v dists : list Q) (idxs : list Z)
    (rows : list Row) (results : list ResultRow)
    (r : ResultRow) (la lo : Q) (rs : list (Q * Q)) :
  u <> ""%string ->
  embed_backend u = EmbOk v ->
  length v = index_d ->
  index_search (map Fin v) 5%nat = (dists, idxs) ->
  iloc metadata idxs = Some rows ->
  with_similarity rows dists = Some results ->
  In r results ->
  geocode_http (res_name r) (res_address r) 0%nat = GeoJson "OK" ((la, lo) :: rs) ->
  truthy la && truthy lo = true ->
  exists ev,
    main metadata embed_backend index_d index_search geocode_http u []
      = (trace_before_geocoding u results ++ ev, inl NameError).
Proof.
  intros Hu Hemb Hlen Hsearch Hiloc Hws Hin Hok Ht.
  rewrite (main_after_retrieval metadata embed_backend index_d index_search geocode_http
             u v dists idxs rows results Hu Hemb Hlen Hsearch Hiloc Hws).
  unfold main_geocoding.
  destruct (build_locations_nonempty geocode_http (series_max (map similarity results))
              (series_min (map similarity results)) results [] (trace_before_geocoding u results)
              r la lo rs Hin Hok Ht) as (ev & locs & Hb & Hne).
  rewrite (bind_run _ _ _ _ _ Hb), show_map_run.
  destruct locs as [|l locs]; [congruence|].
  exists ev. reflexivity.
Qed.

Lemma main_raises_name_error_when_a_row_resolves_witness :
  exists ev,
    main fixture_metadata fixture_embed 3 fixture_search_spread fixture_geocode_ok "cafe" []
      = (trace_before_geocoding "cafe" fixture_results_spread ++ ev, inl NameError).
Proof.
  apply (main_raises_name_error_when_a_row_resolves fixture_metadata fixture_embed 3
           fixture_search_spread fixture_geocode_ok "cafe" [1; 0; 0] [0; 2 # 5; 4 # 5; 6 # 5; 2]
           [0; 1; 2; 3; 4]%Z fixture_metadata fixture_results_spread
           (hd (mkResultRow "" "" "" 0) fixture_results_spread)
           (375665 # 10000) (126978 # 1000) []);
    [discriminate | reflexivity | reflexivity | reflexivity | vm_compute; reflexivity
    | vm_compute; reflexivity | vm_compute; left; reflexivity | reflexivity | reflexivity].
Defined.

(** Every entry of [locations] comes from a row of [results]: it carries
    that row's name, address and review and its similarity normalised with
    [max_similarity] and [min_similarity], and sits at non-zero coordinates
    that the geocoding service returned with status ["OK"] for that row's
    name and address.  There are never more entries than rows. *)
Theorem location_entries_come_from_results
    (geocode_http : string -> string -> nat -> geo_resp) (mx mn : Q)
    (rows : list ResultRow) (tr : list event) :
  exists ev locs,
    build_locations geocode_http mx mn rows [] tr = (tr ++ ev, inr locs) /\
    (length locs <= length rows)%nat /\
    forall l, In l locs ->
      exists r,
        In r rows /\
        loc_name l = res_name r /\ loc_address l = res_address r /\
        loc_review_text l = res_review_text r /\
        loc_similarity l = normalize mx mn (similarity r) /\
        truthy (latitude l) = true /\ truthy (longitude l) = true /\
        exists n, resolved (geocode_http (res_name r) (res_address r) n) (latitude l) (longitude l).
Proof.
  destruct (build_locations_spec geocode_http mx mn rows [] tr) as (ev & sel & Hb & Hsub & _ & Hsel).
  exists ev, (map (location_of mx mn) sel). split; [exact Hb|]. split.
  - rewrite length_map. apply subseq_length in Hsub. rewrite length_map in Hsub. exact Hsub.
  - intros l Hl. apply in_map_iff in Hl as ([r [la lo]] & <- & Hp).
    rewrite Forall_forall in Hsel. destruct (Hsel _ Hp) as [Ht Hres]. cbn in Ht, Hres.
    apply andb_prop in Ht as [Hla Hlo].
    exists r. split; [apply (subseq_in _ _ _ Hsub); apply (in_map fst _ _ Hp)|].
    cbn. repeat split; assumption.
Qed.

(** The normalised similarity of every entry of [locations] is the one
    of a row of [results], computed with the column's [max()] and
    [min()]. *)
Lemma main_geocoding_similarities (geocode_http : string -> string -> nat -> geo_resp)
    (rows : list ResultRow) (tr : list event) :
  exists ev locs,
    main_geocoding geocode_http rows tr = (tr ++ ev, inr locs) /\
    forall l, In l locs ->
      exists r, In r rows /\
        loc_similarity l = normalize (series_max (map similarity rows))
                                     (series_min (map similarity rows)) (similarity r).
Proof.
  unfold main_geocoding.
  destruct (build_locations_spec geocode_http (series_max (map similarity rows))
              (series_min (map similarity rows)) rows [] tr) as (ev & sel & Hb & Hsub & _).
  exists ev, (map (location_of (series_max (map similarity rows)) (series_min (map similarity rows))) sel).
  split; [exact Hb|].
  intros l Hl. apply in_map_iff in Hl as (p & <- & Hp).
  exists (fst p). split; [|reflexivity].
  apply (subseq_in _ _ _ Hsub). apply in_map. exact Hp.
Qed.

(** When the table is not degenerate (its largest and smallest raw
    similarities differ), every entry of [locations] has a normalised
    similarity in [0, 1]. *)
Theorem locations_in_unit_when_spread (geocode_http : string -> string -> nat -> geo_resp)
    (rows : list ResultRow) (tr : list event) :
  ~ series_max (map similarity rows) == series_min (map similarity rows) ->
  exists ev locs,
    main_geocoding geocode_http rows tr = (tr ++ ev, inr locs) /\
    Forall (fun l => in_unit (loc_similarity l)) locs.
Proof.
  intros Hne.
  destruct (main_geocoding_similarities geocode_http rows tr) as (ev & locs & Hb & Hl).
  exists ev, locs. split; [exact Hb|].
  apply Forall_forall. intros l Hin.
  destruct (Hl l Hin) as (r & Hr & ->).
  destruct (series_bounds (map similarity rows) (similarity r)) as [H1 H2];
    [apply in_map; exact Hr|].
  apply normalize_in_unit; assumption.
Qed.

Lemma locations_in_unit_when_spread_witness :
  exists ev locs,
    main_geocoding fixture_geocode_ok fixture_results_spread [] = ([] ++ ev, inr locs) /\
    Forall (fun l => in_unit (loc_similarity l)) locs.
Proof.
  apply locations_in_unit_when_spread. vm_compute. discriminate.
Defined.

(** When the table is degenerate (largest and smallest raw similarity
    equal), every entry of [locations] has the normalised similarity
    [NaN], whatever the geocoder answers. *)
Theorem locations_nan_when_tied (geocode_http : string -> string -> nat -> geo_resp)
    (rows : list ResultRow) (tr : list event) :
  series_max (map similarity rows) == series_min (map similarity rows) ->
  exists ev locs,
    main_geocoding geocode_http rows tr = (tr ++ ev, inr locs) /\
    Forall (fun l => loc_similarity l = NaN) locs.
Proof.
  intros Heq.
  destruct (main_geocoding_similarities geocode_http rows tr) as (ev & locs & Hb & Hl).
  exists ev, locs. split; [exact Hb|].
  apply Forall_forall. intros l Hin.
  destruct (Hl l Hin) as (r & Hr & ->).
  destruct (series_bounds (map similarity rows) (similarity r)) as [H1 H2];
    [apply in_map; exact Hr|].
  apply normalize_degenerate; [exact Heq|].
  apply Qle_antisym; [|exact H1]. rewrite <- Heq. exact H2.
Qed.

Lemma locations_nan_when_tied_witness :
  exists ev locs,
    main_geocoding fixture_geocode_ok fixture_results_tied [] = ([] ++ ev, inr locs) /\
    Forall (fun l => loc_similarity l = NaN) locs.
Proof.
  apply locations_nan_when_tied. vm_compute. reflexivity.
Defined.

(** In a non-degenerate result set the most similar row normalises to
    exactly 1 and the least similar one to exactly 0. *)
Theorem normalize_extremes (results : list ResultRow) (r : ResultRow) :
  In r results ->
  ~ series_max (map similarity results) == series_min (map similarity results) ->
  (similarity r == series_max (map similarity results) ->
     num_eq (normalize (series_max (map similarity results))
                       (series_min (map similarity results)) (similarity r)) 1) /\
  (similarity r == series_min (map similarity results) ->
     num_eq (normalize (series_max (map similarity results))
                       (series_min (map similarity results)) (similarity r)) 0).
Proof.
  intros Hr Hne.
  destruct (series_bounds (map similarity results) (similarity r)) as [H1 H2];
    [apply in_map; exact Hr|].
  set (mx := series_max (map similarity results)) in *.
  set (mn := series_min (map similarity results)) in *.
  assert (Hlt : mn < mx).
  { apply Qle_lt_or_eq in H1 as [H1|H1]; apply Qle_lt_or_eq in H2 as [H2|H2];
      [lra|lra| |]; [|exfalso; apply Hne; rewrite <- H2, H1; reflexivity].
    lra. }
  rewrite normalize_formula by exact Hlt. cbn.
  split; intros Hs; rewrite Hs; field; intros Habs; lra.
Qed.

Lemma normalize_extremes_witness :
  let results := [mkResultRow "a" "a" "a" 1; mkResultRow "b" "b" "b" (1 # 2);
                  mkResultRow "c" "c" "c" (1 # 4)] in
  (similarity (mkResultRow "a" "a" "a" 1) == series_max (map similarity results) ->
     num_eq (normalize (series_max (map similarity results))
                       (series_min (map similarity results)) 1) 1) /\
  (similarity (mkResultRow "a" "a" "a" 1) == series_min (map similarity results) ->
     num_eq (normalize (series_max (map similarity results))
                       (series_min (map similarity results)) 1) 0).
Proof.
  intros results.
  apply (normalize_extremes results (mkResultRow "a" "a" "a" 1)); [left; reflexivity|].
  vm_compute. discriminate.
Defined.

(** Line 79: [similarity = 1 - distances/2] lies in [0, 1] exactly when
    the L2 distance lies in [0, 2]; distances above 2 give negative
    similarities. *)
Theorem raw_similarity_unit_iff (d : Q) :
  0 <= raw_similarity d <= 1 <-> 0 <= d <= 2.
Proof.
  unfold raw_similarity. change (d / 2) with (d * (1 # 2)).
  split; intros [H1 H2]; split; lra.
Qed.

